(** * GrStrokeGeometry: the vertex-chunk bookkeeping of the stroke tessellator

    A shallow embedding of the part of [GrStrokeGeometry] (Skia's
    stroke-to-tessellation-patch converter) that manages vertex storage:
    the [VertexChunk] record, the constructor, which makes the initial
    reservation, and the destructor, which hands unused vertices back to the
    [GrMeshDrawOp::Target].

    The class is given by its header.  The constructor, the destructor and
    the [VertexChunk] struct are defined there and are translated from it.
    [allocVertexChunk] and [reservePatch] are only declared there: their
    models below follow the prose specification and say so. *)

From Stdlib Require Import ZArith List Lia Bool.
From Stdlib Require String.
Import ListNotations.
Open Scope Z_scope.

(** ** The C++ [int]

    Every counter of the class is a 32-bit [int].  Values are integers of [Z];
    the result of an arithmetic operation is brought back into the
    two's-complement range. *)
Module Int32.

Definition min_signed : Z := - 2 ^ 31.
Definition max_signed : Z := 2 ^ 31 - 1.

Definition in_range (z : Z) : Prop := min_signed <= z <= max_signed.

Definition wrap (z : Z) : Z := (z + 2 ^ 31) mod 2 ^ 32 - 2 ^ 31.

Definition mul (a b : Z) : Z := wrap (a * b).
Definition sub (a b : Z) : Z := wrap (a - b).

End Int32.

(** ** Data *)

(** [struct VertexChunk]: the buffer the vertices live in (an [sk_sp], null
    until a buffer is attached), the number of vertices written, and the
    offset of the first vertex inside the buffer. *)
Record VertexChunk : Type := mkVertexChunk {
  fVertexBuffer : option nat;
  fVertexCount : Z;
  fBaseVertex : Z
}.

(** The [GrMeshDrawOp::Target] belongs to the caller.  The class talks to it
    through two requests, which is all this development observes of it: a
    reservation of vertex space and [putBackVertices].  Both carry a vertex
    count and the vertex stride. *)
Inductive TargetCall : Type :=
| ReserveVertices (vertexCount vertexStride : Z)
| PutBackVertices (vertices vertexStride : Z).

(** A target is represented by the requests it has received, oldest first. *)
Definition Target : Type := list TargetCall.

(** What the target answers to a reservation: the buffer, the write pointer
    (counted in vertices), the offset of the first vertex, and the number of
    vertices actually granted. *)
Record Reservation : Type := mkReservation {
  resBuffer : nat;
  resData : Z;
  resBaseVertex : Z;
  resCapacity : Z
}.

(** The members of [GrStrokeGeometry] that the constructor and the destructor
    read or write.  The members that track the path being iterated
    ([fCurrStrokeRadius] to [fCurrentPoint]) are floats and points touched
    only by the segment functions, whose bodies are not in the header. *)
Record GrStrokeGeometry : Type := mkGrStrokeGeometry {
  fMaxTessellationSegments : Z;
  fTarget : Target;
  fVertexChunkArray : list VertexChunk;
  fCurrChunkVertexCapacity : Z;
  fCurrChunkMinVertexAllocCount : Z;
  fCurrChunkVertexData : Z
}.

(** [SkTArray::back()]: the last element; there is none in an empty array. *)
Definition back {A : Type} (arr : list A) : option A :=
  match rev arr with
  | [] => None
  | x :: _ => Some x
  end.

(** Total number of vertices published in an array of chunks. *)
Definition totalVertexCount (arr : list VertexChunk) : Z :=
  fold_right (fun c acc => fVertexCount c + acc) 0 arr.

(** The counts of the reservations a target has received, oldest first. *)
Fixpoint reservations (t : Target) : list Z :=
  match t with
  | [] => []
  | ReserveVertices n _ :: t' => n :: reservations t'
  | PutBackVertices _ _ :: t' => reservations t'
  end.

(** The counts handed back to a target, oldest first. *)
Fixpoint putBacks (t : Target) : list Z :=
  match t with
  | [] => []
  | ReserveVertices _ _ :: t' => putBacks t'
  | PutBackVertices n _ :: t' => n :: putBacks t'
  end.

Section Adapter.

(** [GrTessellateStrokeShader::kNumVerticesPerPatch] and [sizeof(SkPoint)]:
    constants of headers that are not part of these sources. *)
Variable kNumVerticesPerPatch : Z.
Variable sizeofSkPoint : Z.

(** [target->caps().shaderCaps()->maxTessellationSegments()]. *)
Variable maxTessellationSegments : Z.

(** The target's answer to a reservation of [vertexCount] vertices of stride
    [vertexStride], given the requests it has seen so far. *)
Variable respond : Target -> Z -> Z -> Reservation.

(** [fTarget->putBackVertices(vertices, vertexStride)]. *)
Definition putBackVertices (vertices vertexStride : Z) (t : Target) : Target :=
  t ++ [PutBackVertices vertices vertexStride].

(** [~GrStrokeGeometry()]: puts back
    [fCurrChunkVertexCapacity - fVertexChunkArray->back().fVertexCount]
    vertices and leaves the target to the caller.  [None] when the array is
    empty, where [back()] has nothing to return. *)
Definition GrStrokeGeometry_dtor (g : GrStrokeGeometry) : option Target :=
  match back (fVertexChunkArray g) with
  | None => None
  | Some c =>
      Some (putBackVertices
              (Int32.sub (fCurrChunkVertexCapacity g) (fVertexCount c))
              sizeofSkPoint (fTarget g))
  end.

(** Modelled from the spec: [allocVertexChunk] is declared in the header and
    defined in a file that is not part of these sources.  Following the spec,
    it appends a chunk to the output list, reserves [minVertexAllocCount]
    vertices from the target and records the buffer, the base vertex, the
    granted capacity and the write pointer the target reports.  The new
    chunk starts with [fVertexCount = 0], the member's default in the
    struct. *)
Definition allocVertexChunk (minVertexAllocCount : Z) (g : GrStrokeGeometry)
  : GrStrokeGeometry :=
  let r := respond (fTarget g) minVertexAllocCount sizeofSkPoint in
  {| fMaxTessellationSegments := fMaxTessellationSegments g;
     fTarget := fTarget g ++ [ReserveVertices minVertexAllocCount sizeofSkPoint];
     fVertexChunkArray :=
       fVertexChunkArray g ++
       [{| fVertexBuffer := Some (resBuffer r);
           fVertexCount := 0;
           fBaseVertex := resBaseVertex r |}];
     fCurrChunkVertexCapacity := resCapacity r;
     fCurrChunkMinVertexAllocCount := minVertexAllocCount;
     fCurrChunkVertexData := resData r |}.

(** The argument the constructor passes to [allocVertexChunk]:
    [(totalCombinedVerbCnt * 3) * kNumVerticesPerPatch], in [int]. *)
Definition initialReservation (totalCombinedVerbCnt : Z) : Z :=
  Int32.mul (Int32.mul totalCombinedVerbCnt 3) kNumVerticesPerPatch.

(** [GrStrokeGeometry(target, vertexChunkArray, totalCombinedVerbCnt)].  The
    member initialisers store the capability and the two pointers; the body
    calls [allocVertexChunk].  The three [fCurrChunk...] members hold no
    value before that call, which assigns each of them: the zeros below are
    never read. *)
Definition GrStrokeGeometry_ctor (target : Target)
    (vertexChunkArray : list VertexChunk) (totalCombinedVerbCnt : Z)
  : GrStrokeGeometry :=
  allocVertexChunk (initialReservation totalCombinedVerbCnt)
    {| fMaxTessellationSegments := maxTessellationSegments;
       fTarget := target;
       fVertexChunkArray := vertexChunkArray;
       fCurrChunkVertexCapacity := 0;
       fCurrChunkMinVertexAllocCount := 0;
       fCurrChunkVertexData := 0 |}.

(** How many vertices the adapter asks for when the current chunk is
    exhausted.  The spec says only that the new chunk is "sized to at least
    cover known-remaining demand"; the policy is left open, as a function of
    the adapter's state, and the results below hold for every policy that
    covers the patch being reserved. *)
Variable nextChunkVertexCount : GrStrokeGeometry -> Z.

(** [fVertexChunkArray->back().fVertexCount], zero for an empty array. *)
Definition currChunkVertexCount (g : GrStrokeGeometry) : Z :=
  match back (fVertexChunkArray g) with
  | Some c => fVertexCount c
  | None => 0
  end.

(** [fVertexChunkArray->back().fVertexCount += n]. *)
Fixpoint publishVertices (n : Z) (arr : list VertexChunk) : list VertexChunk :=
  match arr with
  | [] => []
  | c :: rest =>
      match rest with
      | [] => [{| fVertexBuffer := fVertexBuffer c;
                  fVertexCount := fVertexCount c + n;
                  fBaseVertex := fBaseVertex c |}]
      | _ :: _ => c :: publishVertices n rest
      end
  end.

(** Modelled from the spec: the step [reservePatch] takes on an exhausted
    chunk, whose code is not part of these sources.  The spec has the adapter
    allocate "a new chunk (returning unused reservation to the target) when
    capacity is exhausted": the unwritten tail of the current reservation goes
    back to the target and a new chunk is requested.  The exhausted chunk
    keeps the count it has. *)
Definition growVertexChunk (g : GrStrokeGeometry) : GrStrokeGeometry :=
  allocVertexChunk (nextChunkVertexCount g)
    {| fMaxTessellationSegments := fMaxTessellationSegments g;
       fTarget :=
         putBackVertices (fCurrChunkVertexCapacity g - currChunkVertexCount g)
           sizeofSkPoint (fTarget g);
       fVertexChunkArray := fVertexChunkArray g;
       fCurrChunkVertexCapacity := fCurrChunkVertexCapacity g;
       fCurrChunkMinVertexAllocCount := fCurrChunkMinVertexAllocCount g;
       fCurrChunkVertexData := fCurrChunkVertexData g |}.

(** Modelled from the spec: [reservePatch] is declared in the header and
    defined in a file that is not part of these sources.  Following the spec,
    it returns a slot for exactly one patch; when the current chunk cannot
    hold another patch it first moves on to a new chunk.  The slot is the
    write pointer advanced by the vertices already published in the chunk,
    and the chunk's count grows by one patch. *)
Definition reservePatch (g : GrStrokeGeometry) : Z * GrStrokeGeometry :=
  let g1 :=
    if currChunkVertexCount g + kNumVerticesPerPatch
         >? fCurrChunkVertexCapacity g
    then growVertexChunk g
    else g in
  (fCurrChunkVertexData g1 + currChunkVertexCount g1,
   {| fMaxTessellationSegments := fMaxTessellationSegments g1;
      fTarget := fTarget g1;
      fVertexChunkArray :=
        publishVertices kNumVerticesPerPatch (fVertexChunkArray g1);
      fCurrChunkVertexCapacity := fCurrChunkVertexCapacity g1;
      fCurrChunkMinVertexAllocCount := fCurrChunkMinVertexAllocCount g1;
      fCurrChunkVertexData := fCurrChunkVertexData g1 |}).

(** Modelled from the spec: [addPath] and the functions that write patches
    are declared in the header only.  By the spec each emitted primitive
    (segment body, join or cap) consumes exactly one patch's worth of
    vertices, through one [reservePatch]; so towards the allocator a
    conversion is the number of patches it emits.  [emitPatches n g] is the
    adapter after [n] more patches. *)
Fixpoint emitPatches (n : nat) (g : GrStrokeGeometry) : GrStrokeGeometry :=
  match n with
  | O => g
  | S n' => emitPatches n' (snd (reservePatch g))
  end.

(** What is asked of the collaborators.  The target grants at least what is
    requested ("may reserve more than requested", and a failed allocation is
    fatal), never a negative number of vertices, and reports the capacity in
    an [int]; the growth policy covers at least the patch that triggered
    it. *)
Definition targetGrantsRequests : Prop :=
  forall (t : Target) (n stride : Z),
    Int32.in_range n ->
    Z.max 0 n <= resCapacity (respond t n stride) <= Int32.max_signed.

Definition growthCoversPatch : Prop :=
  forall g : GrStrokeGeometry,
    kNumVerticesPerPatch <= nextChunkVertexCount g <= Int32.max_signed.

End Adapter.

(** ** Concrete collaborators, for running the model *)

(** A target that grants exactly the vertices requested, each reservation in
    a buffer of its own. *)
Definition exactTarget (t : Target) (vertexCount vertexStride : Z) : Reservation :=
  {| resBuffer := length (reservations t);
     resData := 0;
     resBaseVertex := 0;
     resCapacity := Z.max 0 (Z.min vertexCount Int32.max_signed) |}.

(** A target that hands out whole pages of 64 vertices. *)
Definition pagedTarget (t : Target) (vertexCount vertexStride : Z) : Reservation :=
  {| resBuffer := length (reservations t);
     resData := 0;
     resBaseVertex := 0;
     resCapacity :=
       Z.max 0 (Z.min (64 * ((vertexCount + 63) / 64)) Int32.max_signed) |}.

(** A growth policy: twice the previous request, and never less than a
    patch. *)
Definition doubleChunk (verticesPerPatch : Z) (g : GrStrokeGeometry) : Z :=
  Z.min Int32.max_signed
        (Z.max verticesPerPatch (2 * fCurrChunkMinVertexAllocCount g)).

(** An adapter with two chunks: the first, of 15 vertices, is full; the
    second holds one patch of 5 vertices out of a capacity of 30. *)
Definition twoChunkAdapter : GrStrokeGeometry :=
  {| fMaxTessellationSegments := 64;
     fTarget := [ReserveVertices 15 8; PutBackVertices 0 8; ReserveVertices 30 8];
     fVertexChunkArray :=
       [ {| fVertexBuffer := Some 0%nat; fVertexCount := 15; fBaseVertex := 0 |};
         {| fVertexBuffer := Some 1%nat; fVertexCount := 5; fBaseVertex := 0 |} ];
     fCurrChunkVertexCapacity := 30;
     fCurrChunkMinVertexAllocCount := 30;
     fCurrChunkVertexData := 0 |}.

(** An adapter still in its first chunk: two patches of 5 vertices written
    out of a capacity of 15. *)
Definition oneChunkAdapter : GrStrokeGeometry :=
  {| fMaxTessellationSegments := 64;
     fTarget := [ReserveVertices 15 8];
     fVertexChunkArray :=
       [ {| fVertexBuffer := Some 0%nat; fVertexCount := 10; fBaseVertex := 0 |} ];
     fCurrChunkVertexCapacity := 15;
     fCurrChunkMinVertexAllocCount := 15;
     fCurrChunkVertexData := 0 |}.

(** ** Invariants of a run *)

(** What holds of the adapter after [n] patches were emitted into an output
    list that started as [arr0], the constructor having been granted [cap0]
    vertices: the list is [arr0] followed by the run's own chunks, the last
    of which is the current one; these hold [n] patches in all; and as long
    as the run is in its first chunk, the capacity is still the one granted
    at construction and the patches fit into it. *)
Definition runInvariant (verticesPerPatch : Z) (arr0 : list VertexChunk)
    (cap0 : Z) (n : Z) (g : GrStrokeGeometry) : Prop :=
  exists (pre : list VertexChunk) (c : VertexChunk),
    fVertexChunkArray g = arr0 ++ pre ++ [c] /\
    totalVertexCount (pre ++ [c]) = verticesPerPatch * n /\
    (pre = [] ->
     fCurrChunkVertexCapacity g = cap0 /\
     (0 < n -> verticesPerPatch * n <= cap0)).

(** The current chunk is the last of a non-empty array and its published
    vertices are within the capacity the target granted for it. *)
Definition currChunkWithinCapacity (g : GrStrokeGeometry) : Prop :=
  exists (pre : list VertexChunk) (c : VertexChunk),
    fVertexChunkArray g = pre ++ [c] /\
    0 <= fVertexCount c <= fCurrChunkVertexCapacity g /\
    fCurrChunkVertexCapacity g <= Int32.max_signed.

(** * SkSL settings: capability flags looked up by name

    [Setting::GetType], [Setting::GetValue] and [Setting::constantPropagate]
    of [SkSLSetting.cpp], with the lookup table they share.  The table maps
    the name of a [ShaderCapsClass] method to an object that knows the
    method's type and calls it. *)
Module SkSL.

Import Stdlib.Strings.String.
Local Open Scope string_scope.

(** [ShaderCapsClass], as far as the file uses it: the sixteen getters the
    table names.  A getter is the projection of the same name. *)
Record ShaderCapsClass : Type := mkShaderCaps {
  fbFetchSupport : bool;
  fbFetchNeedsCustomOutput : bool;
  flatInterpolationSupport : bool;
  noperspectiveInterpolationSupport : bool;
  externalTextureSupport : bool;
  mustEnableAdvBlendEqs : bool;
  mustDeclareFragmentShaderOutput : bool;
  mustDoOpBetweenFloorAndAbs : bool;
  mustGuardDivisionEvenAfterExplicitZeroCheck : bool;
  inBlendModesFailRandomlyForAllZeroVec : bool;
  atan2ImplementedAsAtanYOverX : bool;
  canUseAnyFunctionInShader : bool;
  floatIs32Bits : bool;
  integerSupport : bool;
  builtinFMASupport : bool;
  builtinDeterminantSupport : bool
}.

(** The two types a lookup can answer with: [context.fTypes.fBool] and
    [context.fTypes.fInt]. *)
Inductive SkSLType : Type := fBool | fInt.

(** The expressions the file builds: a [BoolLiteral] and an [IntLiteral],
    each with its offset and its value. *)
Inductive Expression : Type :=
| BoolLiteral (offset : Z) (value : bool)
| IntLiteral (offset : Z) (value : Z).

(** [Context], as far as the file uses it: the capabilities, the error
    reporter (the errors reported so far, oldest first, each with its offset)
    and [fConfig->fSettings.fReplaceSettings]. *)
Record Context : Type := mkContext {
  fCaps : ShaderCapsClass;
  fErrors : list (Z * string);
  fReplaceSettings : bool
}.

(** [context.fErrors.error(offset, msg)]. *)
Definition error (offset : Z) (msg : string) (context : Context) : Context :=
  {| fCaps := fCaps context;
     fErrors := fErrors context ++ [(offset, msg)];
     fReplaceSettings := fReplaceSettings context |}.

(** [CapsLookupMethod] and its two subclasses, each holding the pointer to
    the getter it calls. *)
Inductive CapsLookupMethod : Type :=
| BoolCapsLookup (fGetCap : ShaderCapsClass -> bool)
| IntCapsLookup (fGetCap : ShaderCapsClass -> Z).

(** [CapsLookupMethod::type]. *)
Definition type (m : CapsLookupMethod) : SkSLType :=
  match m with
  | BoolCapsLookup _ => fBool
  | IntCapsLookup _ => fInt
  end.

(** [CapsLookupMethod::value]: a literal at offset [-1] holding what the
    getter returns on the context's capabilities. *)
Definition value (m : CapsLookupMethod) (context : Context) : Expression :=
  match m with
  | BoolCapsLookup fGetCap => BoolLiteral (-1) (fGetCap (fCaps context))
  | IntCapsLookup fGetCap => IntLiteral (-1) (fGetCap (fCaps context))
  end.

(** [CapsLookupTable::Pair]. *)
Definition Pair : Type := (string * CapsLookupMethod)%type.

(** The [std::unordered_map] of the table: at most one entry to a key. *)
Definition CapsMap : Type := list Pair.

(** [fMap.find(name)], with [None] for [fMap.end()]. *)
Fixpoint fMap_find (name : string) (fMap : CapsMap) : option CapsLookupMethod :=
  match fMap with
  | [] => None
  | (k, m) :: rest => if String.eqb k name then Some m else fMap_find name rest
  end.

(** The key removed from the map. *)
Fixpoint fMap_erase (name : string) (fMap : CapsMap) : CapsMap :=
  match fMap with
  | [] => []
  | (k, m) :: rest =>
      if String.eqb k name then fMap_erase name rest
      else (k, m) :: fMap_erase name rest
  end.

(** [fMap[name] = m]: the entry is created, or replaced if the key is
    there. *)
Definition fMap_assign (name : string) (m : CapsLookupMethod) (fMap : CapsMap)
  : CapsMap :=
  (name, m) :: fMap_erase name fMap.

(** [CapsLookupTable(capsLookups)]: the entries are assigned in the order of
    the initializer list. *)
Definition CapsLookupTable (capsLookups : list Pair) : CapsMap :=
  fold_left (fun fMap entry => fMap_assign (fst entry) (snd entry) fMap)
            capsLookups [].

(** [CapsLookupTable::lookup]: the method, or [None] for [nullptr]. *)
Definition lookup (fMap : CapsMap) (name : string) : option CapsLookupMethod :=
  fMap_find name fMap.

(** The initializer list of [sCapsLookupTable]: [CAP(T, name)] pairs the
    string [#name] with a [T##CapsLookup] of [&ShaderCapsClass::name]. *)
Definition sCapsLookups : list Pair :=
  [ ("fbFetchSupport", BoolCapsLookup fbFetchSupport);
    ("fbFetchNeedsCustomOutput", BoolCapsLookup fbFetchNeedsCustomOutput);
    ("flatInterpolationSupport", BoolCapsLookup flatInterpolationSupport);
    ("noperspectiveInterpolationSupport",
       BoolCapsLookup noperspectiveInterpolationSupport);
    ("externalTextureSupport", BoolCapsLookup externalTextureSupport);
    ("mustEnableAdvBlendEqs", BoolCapsLookup mustEnableAdvBlendEqs);
    ("mustDeclareFragmentShaderOutput",
       BoolCapsLookup mustDeclareFragmentShaderOutput);
    ("mustDoOpBetweenFloorAndAbs", BoolCapsLookup mustDoOpBetweenFloorAndAbs);
    ("mustGuardDivisionEvenAfterExplicitZeroCheck",
       BoolCapsLookup mustGuardDivisionEvenAfterExplicitZeroCheck);
    ("inBlendModesFailRandomlyForAllZeroVec",
       BoolCapsLookup inBlendModesFailRandomlyForAllZeroVec);
    ("atan2ImplementedAsAtanYOverX", BoolCapsLookup atan2ImplementedAsAtanYOverX);
    ("canUseAnyFunctionInShader", BoolCapsLookup canUseAnyFunctionInShader);
    ("floatIs32Bits", BoolCapsLookup floatIs32Bits);
    ("integerSupport", BoolCapsLookup integerSupport);
    ("builtinFMASupport", BoolCapsLookup builtinFMASupport);
    ("builtinDeterminantSupport", BoolCapsLookup builtinDeterminantSupport) ].

Definition sCapsLookupTable : CapsMap := CapsLookupTable sCapsLookups.

(** The message both getters report for a name that is not in the table. *)
Definition unknownCapabilityFlag (name : string) : string :=
  "unknown capability flag '" ++ name ++ "'".

(** [Setting::GetType(context, offset, name)]: the type of the capability,
    or an error on the context and [None] for [nullptr]. *)
Definition GetType (context : Context) (offset : Z) (name : string)
  : option SkSLType * Context :=
  match lookup sCapsLookupTable name with
  | Some caps => (Some (type caps), context)
  | None => (None, error offset (unknownCapabilityFlag name) context)
  end.

(** [Setting::GetValue(context, offset, name)]. *)
Definition GetValue (context : Context) (offset : Z) (name : string)
  : option Expression * Context :=
  match lookup sCapsLookupTable name with
  | Some caps => (Some (value caps context), context)
  | None => (None, error offset (unknownCapabilityFlag name) context)
  end.

(** A [Setting] expression: its offset in the program and the name it
    refers to. *)
Record Setting : Type := mkSetting {
  fOffset : Z;
  name : string
}.

(** [Setting::constantPropagate(irGenerator, definitions)], given the
    [fContext] of the generator; the definitions are not looked at. *)
Definition constantPropagate (this : Setting) (fContext : Context)
  : option Expression * Context :=
  if fReplaceSettings fContext
  then GetValue fContext (fOffset this) (name this)
  else (None, fContext).

End SkSL.

(** * The grid of rescaled read-backs

    [do_rescale_grid] of [asyncrescaleandread.cpp]: two rows (rescale in
    source gamma, in linear gamma) of three read-backs each (no, low and high
    filter quality), every result drawn on the canvas. *)
Module RescaleGM.

Import Stdlib.Strings.String.
Local Open Scope string_scope.

(** [skiagm::DrawResult], [SkImage::RescaleGamma] and the filter qualities the
    grid goes through. *)
Inductive DrawResult : Type := kOk | kFail | kSkip.
Inductive RescaleGamma : Type := kSrc | kLinear.
Inductive SkFilterQuality : Type :=
| kNone_SkFilterQuality
| kLow_SkFilterQuality
| kHigh_SkFilterQuality.

Record SkISize : Type := mkSkISize { width : Z; height : Z }.
Record SkIRect : Type := mkSkIRect { fLeft : Z; fTop : Z; fRight : Z; fBottom : Z }.

(** What the grid does to the canvas.  An image is the non-null [sk_sp] a
    read-back returned.  [translate] is given [int]s here, which the call
    converts to scalars. *)
Inductive CanvasCall : Type :=
| Save
| Restore
| Translate (dx dy : Z)
| DrawImage (image : nat) (left top : Z).

(** A call of one of the two read-back helpers with the arguments the grid
    passes: [do_read_and_scale_yuv] with a YUV colour space, or
    [do_read_and_scale] without one. *)
Record ReadRequest : Type := mkReadRequest {
  reqYUVColorSpace : option Z;
  reqSrcRect : SkIRect;
  reqSize : SkISize;
  reqGamma : RescaleGamma;
  reqQuality : SkFilterQuality
}.

(** How a read-back ends: with an image, with [nullptr], or not at all.  The
    helpers poll until their callback has been called and assert, while they
    wait, that there is a GPU context to poll; a read-back that waits for
    ever or stops at that assertion does not return. *)
Inductive ReadBack : Type :=
| ReadImage (image : nat)
| ReadNull
| ReadNoReturn.

(** How a call of the grid ends: it returns a result, or it does not return
    (a read-back did not, or an assertion stopped it). *)
Inductive Exit : Type :=
| Return (r : DrawResult)
| NoReturn.

(** The canvas as the grid sees it -- whether its recording context is a
    direct context, whether its colour type is [kUnknown_SkColorType], and
    the calls made on it, oldest first -- with the error message and the
    read-backs requested so far. *)
Record Grid : Type := mkGrid {
  directContext : bool;
  colorTypeUnknown : bool;
  canvasCalls : list CanvasCall;
  errorMsg : string;
  requests : list ReadRequest
}.

Definition onCanvas (c : CanvasCall) (g : Grid) : Grid :=
  {| directContext := directContext g;
     colorTypeUnknown := colorTypeUnknown g;
     canvasCalls := canvasCalls g ++ [c];
     errorMsg := errorMsg g;
     requests := requests g |}.

(** [errorMsg->printf(msg)] and [*errorMsg = msg]: the message is replaced. *)
Definition setErrorMsg (msg : string) (g : Grid) : Grid :=
  {| directContext := directContext g;
     colorTypeUnknown := colorTypeUnknown g;
     canvasCalls := canvasCalls g;
     errorMsg := msg;
     requests := requests g |}.

(** [a + b] in [int]. *)
Definition int_add (a b : Z) : Z := Int32.wrap (a + b).

(** [!(size.width() & 0b1) && !(size.height() & 0b1)]. *)
Definition evenSize (size : SkISize) : bool :=
  Z.eqb (Z.land (width size) 1) 0 && Z.eqb (Z.land (height size) 1) 0.

(** Saves minus restores: how many saves a run of calls leaves open. *)
Fixpoint openSaves (calls : list CanvasCall) : Z :=
  match calls with
  | [] => 0
  | Save :: rest => 1 + openSaves rest
  | Restore :: rest => openSaves rest - 1
  | _ :: rest => openSaves rest
  end.

Fixpoint drawnImages (calls : list CanvasCall) : list nat :=
  match calls with
  | [] => []
  | DrawImage image _ _ :: rest => image :: drawnImages rest
  | _ :: rest => drawnImages rest
  end.

(** The cells of the grid in the order the loops visit them. *)
Definition gridCells : list (RescaleGamma * SkFilterQuality) :=
  [ (kSrc, kNone_SkFilterQuality); (kSrc, kLow_SkFilterQuality);
    (kSrc, kHigh_SkFilterQuality); (kLinear, kNone_SkFilterQuality);
    (kLinear, kLow_SkFilterQuality); (kLinear, kHigh_SkFilterQuality) ].

Section Grid.

(** [kRec601_SkYUVColorSpace] and [kLastEnum_SkYUVColorSpace], enumerators of
    a header that is not part of these sources. *)
Variable kRec601_SkYUVColorSpace : Z.
Variable kLastEnum_SkYUVColorSpace : Z.

(** Whether [SkASSERT] checks its condition (a debug build) or is compiled
    out. *)
Variable SK_DEBUG : bool.

(** The two helpers, [do_read_and_scale] and [do_read_and_scale_yuv], talk to
    the source, the GPU context and the image factories only; of a call the
    grid sees how it ends.  [readBack] is the end of a read-back given the
    requests made before it. *)
Variable readBack : list ReadRequest -> ReadRequest -> ReadBack.

Variable srcRect : SkIRect.
Variable newSize : SkISize.
Variable doYUV420 : bool.
Variable pad : Z.

Definition readAndScale (req : ReadRequest) (g : Grid) : ReadBack * Grid :=
  (readBack (requests g) req,
   {| directContext := directContext g;
      colorTypeUnknown := colorTypeUnknown g;
      canvasCalls := canvasCalls g;
      errorMsg := errorMsg g;
      requests := requests g ++ [req] |}).

(** [do_read_and_scale], as the grid sees it. *)
Definition do_read_and_scale (req : ReadRequest) (g : Grid) : ReadBack * Grid :=
  readAndScale req g.

(** [do_read_and_scale_yuv], as the grid sees it.  Its first statement
    asserts that both dimensions of the size are even, before anything is
    asked of the source. *)
Definition do_read_and_scale_yuv (req : ReadRequest) (g : Grid)
  : ReadBack * Grid :=
  if SK_DEBUG && negb (evenSize (reqSize req))
  then (ReadNoReturn, g)
  else readAndScale req g.

(** [static_cast<int>(yuvColorSpace + 1) % (kLastEnum_SkYUVColorSpace + 1)]. *)
Definition nextColorSpace (yuvColorSpace : Z) : Z :=
  Z.rem (int_add yuvColorSpace 1) (int_add kLastEnum_SkYUVColorSpace 1).

(** The inner loop, over the filter qualities that are left.  [Some e] ends
    the function; the colour space is carried to the next read-back.  The
    [SkScopeExit] of each round is armed by the YUV helper and acts on the
    GPU context only: it leaves no trace here. *)
Fixpoint qualityLoop (qualities : list SkFilterQuality) (gamma : RescaleGamma)
    (yuvColorSpace : Z) (g : Grid) : option Exit * Z * Grid :=
  match qualities with
  | [] => (None, yuvColorSpace, g)
  | quality :: rest =>
      if doYUV420 then
        let (result, g1) :=
          do_read_and_scale_yuv
            {| reqYUVColorSpace := Some yuvColorSpace;
               reqSrcRect := srcRect;
               reqSize := newSize;
               reqGamma := gamma;
               reqQuality := quality |} g in
        match result with
        | ReadNoReturn => (Some NoReturn, yuvColorSpace, g1)
        | ReadNull =>
            (Some (Return kSkip), yuvColorSpace,
             setErrorMsg "YUV420 async call failed. Allowed for now." g1)
        | ReadImage image =>
            qualityLoop rest gamma (nextColorSpace yuvColorSpace)
              (onCanvas (Translate (int_add (width newSize) pad) 0)
                 (onCanvas (DrawImage image 0 0) g1))
        end
      else
        let (result, g1) :=
          do_read_and_scale
            {| reqYUVColorSpace := None;
               reqSrcRect := srcRect;
               reqSize := newSize;
               reqGamma := gamma;
               reqQuality := quality |} g in
        match result with
        | ReadNoReturn => (Some NoReturn, yuvColorSpace, g1)
        | ReadNull => (Some (Return kFail), yuvColorSpace,
                       setErrorMsg "async read call failed." g1)
        | ReadImage image =>
            qualityLoop rest gamma yuvColorSpace
              (onCanvas (Translate (int_add (width newSize) pad) 0)
                 (onCanvas (DrawImage image 0 0) g1))
        end
  end.

(** The outer loop, over the gammas that are left. *)
Fixpoint gammaLoop (gammas : list RescaleGamma) (yuvColorSpace : Z) (g : Grid)
  : option Exit * Z * Grid :=
  match gammas with
  | [] => (None, yuvColorSpace, g)
  | gamma :: rest =>
      match qualityLoop
              [kNone_SkFilterQuality; kLow_SkFilterQuality; kHigh_SkFilterQuality]
              gamma yuvColorSpace (onCanvas Save g) with
      | (Some e, cs, g1) => (Some e, cs, g1)
      | (None, cs, g1) =>
          gammaLoop rest cs
            (onCanvas (Translate 0 (int_add (height newSize) pad))
               (onCanvas Restore g1))
      end
  end.

(** [do_rescale_grid(canvas, src, context, srcRect, newSize, doYUV420,
    errorMsg, pad)]. *)
Definition do_rescale_grid (g : Grid) : Exit * Grid :=
  if doYUV420 && negb (directContext g) then
    (Return kSkip, setErrorMsg "YUV420 only supported on direct GPU for now." g)
  else if colorTypeUnknown g then
    (Return kSkip, setErrorMsg "Not supported on recording/vector backends." g)
  else
    match gammaLoop [kSrc; kLinear] kRec601_SkYUVColorSpace (onCanvas Save g) with
    | (Some e, _, g1) => (e, g1)
    | (None, _, g1) => (Return kOk, onCanvas Restore g1)
    end.

(** ** What the source answers

    The vocabulary the properties of the grid are stated in.  The request
    for the [i]-th cell: in a YUV grid the colour space has moved on [i]
    times from [kRec601_SkYUVColorSpace]. *)
Definition gridRequest (i : nat) (cell : RescaleGamma * SkFilterQuality)
  : ReadRequest :=
  {| reqYUVColorSpace :=
       if doYUV420
       then Some (Nat.iter i nextColorSpace kRec601_SkYUVColorSpace)
       else None;
     reqSrcRect := srcRect;
     reqSize := newSize;
     reqGamma := fst cell;
     reqQuality := snd cell |}.

Definition gridRequests : list ReadRequest :=
  map (fun c => gridRequest (fst c) (snd c)) (combine (seq 0 6) gridCells).

(** The source asked for [reqs] one after the other, after [history]: the
    images it returns up to its first answer that is not an image, and that
    answer ([None] when every request yields an image). *)
Fixpoint readBacks (history : list ReadRequest) (reqs : list ReadRequest)
  : list nat * option ReadBack :=
  match reqs with
  | [] => ([], None)
  | req :: rest =>
      match readBack history req with
      | ReadImage image =>
          let (images, stop) := readBacks (history ++ [req]) rest in
          (image :: images, stop)
      | ReadNull => ([], Some ReadNull)
      | ReadNoReturn => ([], Some ReadNoReturn)
      end
  end.

End Grid.

(** A source whose read-backs all succeed, and one whose [n]-th returns
    [nullptr]. *)
Definition readAlways (history : list ReadRequest) (req : ReadRequest)
  : ReadBack :=
  ReadImage (List.length history).

Definition readFailsAt (n : nat) (history : list ReadRequest)
    (req : ReadRequest) : ReadBack :=
  if Nat.eqb (List.length history) n then ReadNull
  else ReadImage (List.length history).

Definition emptyGrid (direct : bool) : Grid :=
  {| directContext := direct;
     colorTypeUnknown := false;
     canvasCalls := [];
     errorMsg := EmptyString;
     requests := [] |}.

End RescaleGM.

(** * Properties *)

(** ** Arithmetic in [int] *)

Lemma Int32_wrap_in_range (z : Z) : Int32.in_range (Int32.wrap z).
Proof.
  unfold Int32.in_range, Int32.wrap, Int32.min_signed, Int32.max_signed.
  pose proof (Z.mod_pos_bound (z + 2 ^ 31) (2 ^ 32) ltac:(lia)). lia.
Qed.

Lemma Int32_wrap_small (z : Z) : Int32.in_range z -> Int32.wrap z = z.
Proof.
  unfold Int32.in_range, Int32.wrap, Int32.min_signed, Int32.max_signed.
  intros Hz. rewrite Z.mod_small; lia.
Qed.

Lemma Int32_mul_small (a b : Z) :
  Int32.in_range (a * b) -> Int32.mul a b = a * b.
Proof. apply Int32_wrap_small. Qed.

Lemma Int32_sub_small (a b : Z) :
  Int32.in_range (a - b) -> Int32.sub a b = a - b.
Proof. apply Int32_wrap_small. Qed.

(** The constructor's product is the mathematical one exactly when that one
    fits in an [int]. *)
Lemma initialReservation_exact (k t : Z) :
  0 <= t -> 0 <= k -> (t * 3) * k <= Int32.max_signed ->
  initialReservation k t = (t * 3) * k.
Proof.
  intros Ht Hk Hfit. unfold initialReservation.
  assert (Hk' : k = 0 \/ 0 < k) by lia.
  destruct Hk' as [-> | Hpos].
  - rewrite Z.mul_0_r. unfold Int32.mul. rewrite Z.mul_0_r. reflexivity.
  - assert (H3 : Int32.in_range (t * 3)).
    { unfold Int32.in_range, Int32.min_signed, Int32.max_signed in *. nia. }
    rewrite (Int32_mul_small t 3 H3).
    apply Int32_mul_small.
    unfold Int32.in_range, Int32.min_signed, Int32.max_signed in *. nia.
Qed.

Lemma initialReservation_exact_iff (k t : Z) :
  0 <= t -> 0 <= k ->
  (initialReservation k t = (t * 3) * k <-> (t * 3) * k <= Int32.max_signed).
Proof.
  intros Ht Hk. split.
  - intros Heq.
    assert (Hr : Int32.in_range (initialReservation k t)).
    { unfold initialReservation. apply Int32_wrap_in_range. }
    rewrite Heq in Hr. apply Hr.
  - apply initialReservation_exact; assumption.
Qed.

(** X1.  The reservation the constructor asks for, with a non-negative
    [totalCombinedVerbCnt] and a positive [kNumVerticesPerPatch]: it is
    always an [int]; it is the product [totalCombinedVerbCnt * 3 *
    kNumVerticesPerPatch] of the numbers exactly when that product fits in an
    [int]; and when the product does not fit, the constructor asks for less
    than the product, the multiplication having wrapped around. *)
Theorem initial_reservation_overflow (kNumVerticesPerPatch t : Z) :
  0 <= t -> 0 < kNumVerticesPerPatch ->
  Int32.in_range (initialReservation kNumVerticesPerPatch t) /\
  (initialReservation kNumVerticesPerPatch t = (t * 3) * kNumVerticesPerPatch <->
   (t * 3) * kNumVerticesPerPatch <= Int32.max_signed) /\
  (Int32.max_signed < (t * 3) * kNumVerticesPerPatch ->
   initialReservation kNumVerticesPerPatch t < (t * 3) * kNumVerticesPerPatch).
Proof.
  intros Ht Hk.
  assert (Hr : Int32.in_range (initialReservation kNumVerticesPerPatch t)).
  { unfold initialReservation. apply Int32_wrap_in_range. }
  split; [exact Hr |]. split.
  - split.
    + intros Heq. rewrite Heq in Hr. apply Hr.
    + apply initialReservation_exact; lia.
  - intros Hbig. destruct Hr as [_ Hmax]. lia.
Qed.

(** ** Arrays of chunks *)


Lemma back_app_last {A : Type} (l : list A) (x : A) : back (l ++ [x]) = Some x.
Proof. unfold back. rewrite rev_app_distr. reflexivity. Qed.

Lemma back_none_nil {A : Type} (l : list A) : back l = None -> l = [].
Proof.
  destruct l as [| a l] using rev_ind; [reflexivity |].
  rewrite back_app_last. discriminate.
Qed.

(** The destructor goes wrong exactly on an empty array. *)
Lemma GrStrokeGeometry_dtor_none (sizeofSkPoint : Z) (g : GrStrokeGeometry) :
  GrStrokeGeometry_dtor sizeofSkPoint g = None <-> fVertexChunkArray g = [].
Proof.
  unfold GrStrokeGeometry_dtor. split.
  - destruct (back (fVertexChunkArray g)) eqn:E; [discriminate |].
    intros _. apply back_none_nil, E.
  - intros ->. reflexivity.
Qed.

Lemma totalVertexCount_app (l1 l2 : list VertexChunk) :
  totalVertexCount (l1 ++ l2) = totalVertexCount l1 + totalVertexCount l2.
Proof.
  unfold totalVertexCount.
  induction l1 as [| c l1 IH]; simpl; [reflexivity | rewrite IH; lia].
Qed.

Lemma publishVertices_last (n : Z) (pre : list VertexChunk) (c : VertexChunk) :
  publishVertices n (pre ++ [c]) =
  pre ++ [{| fVertexBuffer := fVertexBuffer c;
             fVertexCount := fVertexCount c + n;
             fBaseVertex := fBaseVertex c |}].
Proof.
  induction pre as [| p pre IH]; [reflexivity |].
  change ((p :: pre) ++ [c]) with (p :: (pre ++ [c])).
  cbn [publishVertices]. rewrite IH.
  destruct (pre ++ [c]) eqn:E; [destruct pre; discriminate | reflexivity].
Qed.

(** ** Construction and teardown *)

Lemma reservations_app (t1 t2 : Target) :
  reservations (t1 ++ t2) = reservations t1 ++ reservations t2.
Proof.
  induction t1 as [| [n s | n s] t1 IH]; simpl; [reflexivity | |];
    rewrite IH; reflexivity.
Qed.

Lemma putBacks_app (t1 t2 : Target) :
  putBacks (t1 ++ t2) = putBacks t1 ++ putBacks t2.
Proof.
  induction t1 as [| [n s | n s] t1 IH]; simpl; [reflexivity | |];
    rewrite IH; reflexivity.
Qed.

(** C2, as the code has it.  For a non-negative [totalCombinedVerbCnt]
    whose product [(totalCombinedVerbCnt * 3) * kNumVerticesPerPatch] fits in
    an [int], the constructor makes one reservation, at once, of exactly that
    many vertices: the target receives this one request and nothing else, the
    count is recorded as the chunk's minimum allocation count, and the
    capacity and the write pointer are the ones the target reports for it. *)
Theorem constructor_initial_reservation
    (kNumVerticesPerPatch sizeofSkPoint maxTessellationSegments : Z)
    (respond : Target -> Z -> Z -> Reservation)
    (target : Target) (vertexChunkArray : list VertexChunk)
    (totalCombinedVerbCnt : Z) :
  0 <= totalCombinedVerbCnt ->
  0 <= kNumVerticesPerPatch ->
  (totalCombinedVerbCnt * 3) * kNumVerticesPerPatch <= Int32.max_signed ->
  let g := GrStrokeGeometry_ctor kNumVerticesPerPatch sizeofSkPoint
             maxTessellationSegments respond target vertexChunkArray
             totalCombinedVerbCnt in
  let request := (totalCombinedVerbCnt * 3) * kNumVerticesPerPatch in
  fTarget g = target ++ [ReserveVertices request sizeofSkPoint] /\
  reservations (fTarget g) = reservations target ++ [request] /\
  putBacks (fTarget g) = putBacks target /\
  fCurrChunkMinVertexAllocCount g = request /\
  fCurrChunkVertexCapacity g =
    resCapacity (respond target request sizeofSkPoint) /\
  fCurrChunkVertexData g = resData (respond target request sizeofSkPoint).
Proof.
  intros Ht Hk Hfit g request. subst g request.
  unfold GrStrokeGeometry_ctor, allocVertexChunk.
  rewrite (initialReservation_exact kNumVerticesPerPatch totalCombinedVerbCnt
             Ht Hk Hfit).
  cbn [fTarget fCurrChunkMinVertexAllocCount fCurrChunkVertexCapacity
       fCurrChunkVertexData].
  repeat split.
  - rewrite reservations_app. reflexivity.
  - rewrite putBacks_app. simpl. apply app_nil_r.
Qed.

(** C1, as the code has it.  Teardown makes exactly one [putBackVertices]
    call and makes no reservation.  The count it passes is
    [fCurrChunkVertexCapacity - back().fVertexCount], computed in [int]: the
    granted but unwritten capacity of the last chunk, whatever the earlier
    chunks hold.  With a count between zero and the capacity this is the plain
    difference and is not negative; and when the last chunk is the only one,
    it is the capacity minus all the vertices written. *)
Theorem teardown_puts_back_last_chunk_slack (sizeofSkPoint : Z)
    (g : GrStrokeGeometry) (pre : list VertexChunk) (c : VertexChunk) :
  fVertexChunkArray g = pre ++ [c] ->
  let unused := Int32.sub (fCurrChunkVertexCapacity g) (fVertexCount c) in
  GrStrokeGeometry_dtor sizeofSkPoint g =
    Some (fTarget g ++ [PutBackVertices unused sizeofSkPoint]) /\
  putBacks (fTarget g ++ [PutBackVertices unused sizeofSkPoint]) =
    putBacks (fTarget g) ++ [unused] /\
  reservations (fTarget g ++ [PutBackVertices unused sizeofSkPoint]) =
    reservations (fTarget g) /\
  (0 <= fVertexCount c <= fCurrChunkVertexCapacity g ->
   fCurrChunkVertexCapacity g <= Int32.max_signed ->
   unused = fCurrChunkVertexCapacity g - fVertexCount c /\ 0 <= unused) /\
  (pre = [] ->
   fCurrChunkVertexCapacity g - fVertexCount c =
   fCurrChunkVertexCapacity g - totalVertexCount (fVertexChunkArray g)).
Proof.
  intros Harr unused. subst unused.
  split; [| split; [| split; [| split]]].
  - unfold GrStrokeGeometry_dtor, putBackVertices.
    rewrite Harr, back_app_last. reflexivity.
  - rewrite putBacks_app. reflexivity.
  - rewrite reservations_app. simpl. apply app_nil_r.
  - intros Hcount Hmax.
    rewrite Int32_sub_small; [lia |].
    unfold Int32.in_range, Int32.min_signed, Int32.max_signed in *. lia.
  - intros ->. rewrite Harr. unfold totalVertexCount. simpl. lia.
Qed.

(** ** The allocator along a run *)

Section Run.

Variable kNumVerticesPerPatch : Z.
Variable sizeofSkPoint : Z.
Variable maxTessellationSegments : Z.
Variable respond : Target -> Z -> Z -> Reservation.
Variable nextChunkVertexCount : GrStrokeGeometry -> Z.

Local Abbreviation ctor :=
  (GrStrokeGeometry_ctor kNumVerticesPerPatch sizeofSkPoint
     maxTessellationSegments respond).
Local Abbreviation alloc := (allocVertexChunk sizeofSkPoint respond).
Local Abbreviation grow :=
  (growVertexChunk sizeofSkPoint respond nextChunkVertexCount).
Local Abbreviation reserve :=
  (reservePatch kNumVerticesPerPatch sizeofSkPoint respond
     nextChunkVertexCount).
Local Abbreviation emit :=
  (emitPatches kNumVerticesPerPatch sizeofSkPoint respond
     nextChunkVertexCount).

Lemma currChunkVertexCount_last (g : GrStrokeGeometry)
    (pre : list VertexChunk) (c : VertexChunk) :
  fVertexChunkArray g = pre ++ [c] -> currChunkVertexCount g = fVertexCount c.
Proof.
  intros E. unfold currChunkVertexCount. rewrite E, back_app_last. reflexivity.
Qed.

Lemma allocVertexChunk_array (m : Z) (g : GrStrokeGeometry) :
  fVertexChunkArray (alloc m g) =
  fVertexChunkArray g ++
  [{| fVertexBuffer := Some (resBuffer (respond (fTarget g) m sizeofSkPoint));
      fVertexCount := 0;
      fBaseVertex := resBaseVertex (respond (fTarget g) m sizeofSkPoint) |}].
Proof. reflexivity. Qed.

Lemma emitPatches_succ (n : nat) (g : GrStrokeGeometry) :
  emit (S n) g = snd (reserve (emit n g)).
Proof.
  revert g. induction n as [| n IH]; intros g; [reflexivity |].
  change (emit (S (S n)) g) with (emit (S n) (snd (reserve g))).
  rewrite IH. reflexivity.
Qed.

(** The constructor establishes the run invariant, whatever the output list
    held before. *)
Lemma runInvariant_ctor (target : Target) (arr0 : list VertexChunk) (t : Z) :
  runInvariant kNumVerticesPerPatch arr0
    (fCurrChunkVertexCapacity (ctor target arr0 t)) 0 (ctor target arr0 t).
Proof.
  unfold runInvariant, GrStrokeGeometry_ctor.
  eexists [], _. rewrite allocVertexChunk_array. cbn [fVertexChunkArray app].
  split; [reflexivity |]. split.
  - unfold totalVertexCount. simpl. lia.
  - intros _. split; [reflexivity | lia].
Qed.

(** One more patch keeps it. *)
Lemma runInvariant_reservePatch (arr0 : list VertexChunk) (cap0 n : Z)
    (g : GrStrokeGeometry) :
  0 <= n ->
  runInvariant kNumVerticesPerPatch arr0 cap0 n g ->
  runInvariant kNumVerticesPerPatch arr0 cap0 (n + 1) (snd (reserve g)).
Proof.
  intros Hn (pre & c & Harr & Hsum & Hfirst).
  assert (Hcnt : currChunkVertexCount g = fVertexCount c).
  { apply (currChunkVertexCount_last g (arr0 ++ pre)).
    rewrite Harr, app_assoc. reflexivity. }
  unfold reservePatch. rewrite Hcnt.
  destruct (fVertexCount c + kNumVerticesPerPatch >? fCurrChunkVertexCapacity g)
    eqn:Hfull; cbn [snd fVertexChunkArray fCurrChunkVertexCapacity].
  - (* the chunk is exhausted: a new one is appended *)
    unfold growVertexChunk. rewrite allocVertexChunk_array.
    cbn [fVertexChunkArray fTarget]. rewrite Harr, publishVertices_last.
    cbn [fVertexCount fVertexBuffer fBaseVertex].
    eexists (pre ++ [c]), _.
    split; [rewrite <- !app_assoc; reflexivity |]. split.
    + rewrite totalVertexCount_app, Hsum.
      unfold totalVertexCount. simpl. lia.
    + intros Hnil. destruct pre; discriminate.
  - (* the patch goes into the current chunk *)
    rewrite Z.gtb_ltb in Hfull. apply Z.ltb_ge in Hfull.
    rewrite Harr, app_assoc, publishVertices_last, <- app_assoc.
    exists pre. eexists. split; [reflexivity |]. split.
    + rewrite totalVertexCount_app in *. unfold totalVertexCount in *.
      simpl in *. lia.
    + intros Hnil. destruct (Hfirst Hnil) as [Hcap Hfit].
      split; [exact Hcap |]. intros _. subst pre.
      unfold totalVertexCount in Hsum. simpl in Hsum. lia.
Qed.

Lemma runInvariant_emitPatches (target : Target) (arr0 : list VertexChunk)
    (t : Z) (n : nat) :
  runInvariant kNumVerticesPerPatch arr0
    (fCurrChunkVertexCapacity (ctor target arr0 t)) (Z.of_nat n)
    (emit n (ctor target arr0 t)).
Proof.
  induction n as [| n IH].
  - apply runInvariant_ctor.
  - rewrite emitPatches_succ, Nat2Z.inj_succ. unfold Z.succ.
    apply runInvariant_reservePatch; [lia | exact IH].
Qed.

(** Chunk overflow, for the allocator as the spec describes it.  In every
    run -- construction followed by [n] emitted patches -- that asks for more
    vertices than the initial reservation was granted, the adapter has
    appended at least one chunk beyond its first one; and in every run the
    vertex counts of the output list add up to what the list held before plus
    exactly [kNumVerticesPerPatch * n], so to exactly
    [kNumVerticesPerPatch * n] for a list that started empty. *)
Lemma chunk_overflow_vertex_sum (target : Target) (arr0 : list VertexChunk)
    (t : Z) (n : nat) :
  let g0 := ctor target arr0 t in
  let g := emit n g0 in
  (0 <= fCurrChunkVertexCapacity g0 < kNumVerticesPerPatch * Z.of_nat n ->
   (length arr0 + 2 <= length (fVertexChunkArray g))%nat) /\
  totalVertexCount (fVertexChunkArray g) =
    totalVertexCount arr0 + kNumVerticesPerPatch * Z.of_nat n /\
  (arr0 = [] ->
   totalVertexCount (fVertexChunkArray g) = kNumVerticesPerPatch * Z.of_nat n).
Proof.
  intros g0 g.
  destruct (runInvariant_emitPatches target arr0 t n)
    as (pre & c & Harr & Hsum & Hfirst).
  fold g0 in Harr, Hfirst. fold g in Harr.
  assert (Htotal : totalVertexCount (fVertexChunkArray g) =
                   totalVertexCount arr0 + kNumVerticesPerPatch * Z.of_nat n).
  { rewrite Harr, totalVertexCount_app, Hsum. reflexivity. }
  split; [| split].
  - intros [Hcap Hmore]. rewrite Harr, !length_app. simpl.
    destruct pre as [| p pre]; [| simpl; lia].
    destruct (Hfirst eq_refl) as [_ Hfit].
    assert (Hn : Z.of_nat n = 0 \/ 0 < Z.of_nat n) by lia.
    destruct Hn as [Hn | Hn]; [rewrite Hn in Hmore | specialize (Hfit Hn)]; lia.
  - exact Htotal.
  - intros ->. rewrite Htotal. unfold totalVertexCount. simpl. lia.
Qed.

(** *** With collaborators that keep their contracts *)

Hypothesis patch_positive : 0 < kNumVerticesPerPatch.
Hypothesis target_grants : targetGrantsRequests respond.
Hypothesis growth_covers :
  growthCoversPatch kNumVerticesPerPatch nextChunkVertexCount.

Lemma currChunkWithinCapacity_alloc (m : Z) (g : GrStrokeGeometry) :
  Int32.in_range m -> currChunkWithinCapacity (alloc m g).
Proof.
  intros Hm. unfold currChunkWithinCapacity.
  eexists (fVertexChunkArray g), _. split; [apply allocVertexChunk_array |].
  cbn [fVertexCount allocVertexChunk fCurrChunkVertexCapacity].
  pose proof (target_grants (fTarget g) m sizeofSkPoint Hm). lia.
Qed.

Lemma currChunkWithinCapacity_ctor (target : Target)
    (arr0 : list VertexChunk) (t : Z) :
  currChunkWithinCapacity (ctor target arr0 t).
Proof.
  apply currChunkWithinCapacity_alloc.
  unfold initialReservation. apply Int32_wrap_in_range.
Qed.

Lemma currChunkWithinCapacity_reservePatch (g : GrStrokeGeometry) :
  currChunkWithinCapacity g -> currChunkWithinCapacity (snd (reserve g)).
Proof.
  intros (pre & c & Harr & Hcount & Hcap).
  pose proof (currChunkVertexCount_last g pre c Harr) as Hcnt.
  unfold reservePatch. rewrite Hcnt.
  destruct (fVertexCount c + kNumVerticesPerPatch >? fCurrChunkVertexCapacity g)
    eqn:Hfull; cbn [snd].
  - unfold growVertexChunk, currChunkWithinCapacity.
    cbn [fVertexChunkArray fCurrChunkVertexCapacity]. rewrite allocVertexChunk_array.
    cbn [fVertexChunkArray fTarget]. rewrite publishVertices_last.
    cbn [fVertexCount fVertexBuffer fBaseVertex allocVertexChunk
         fCurrChunkVertexCapacity].
    eexists _, _. split; [reflexivity |].
    cbn [fVertexCount].
    destruct (growth_covers g) as [Hlo Hhi].
    match goal with
    | |- context [respond ?tg ?m ?s] =>
        pose proof (target_grants tg m s) as Hgrant
    end.
    unfold Int32.in_range, Int32.min_signed in Hgrant.
    unfold Int32.max_signed in *. lia.
  - rewrite Z.gtb_ltb in Hfull. apply Z.ltb_ge in Hfull.
    unfold currChunkWithinCapacity.
    cbn [fVertexChunkArray fCurrChunkVertexCapacity].
    rewrite Harr, publishVertices_last.
    eexists _, _. split; [reflexivity |]. cbn [fVertexCount]. lia.
Qed.

Lemma currChunkWithinCapacity_emitPatches (target : Target)
    (arr0 : list VertexChunk) (t : Z) (n : nat) :
  currChunkWithinCapacity (emit n (ctor target arr0 t)).
Proof.
  induction n as [| n IH].
  - apply currChunkWithinCapacity_ctor.
  - rewrite emitPatches_succ. apply currChunkWithinCapacity_reservePatch, IH.
Qed.

(** C10.  After construction, and after any number of patches, the output
    list is not empty, so the destructor's [back()] finds a chunk; that
    chunk's [fVertexCount] is at most [fCurrChunkVertexCapacity], so the
    count the destructor passes to [putBackVertices] is the plain difference
    of the two and is not negative. *)
Theorem destructor_back_in_bounds (target : Target) (arr0 : list VertexChunk)
    (t : Z) (n : nat) :
  let g := emit n (ctor target arr0 t) in
  fVertexChunkArray g <> [] /\
  exists c : VertexChunk,
    back (fVertexChunkArray g) = Some c /\
    fVertexCount c <= fCurrChunkVertexCapacity g /\
    0 <= fCurrChunkVertexCapacity g - fVertexCount c /\
    GrStrokeGeometry_dtor sizeofSkPoint g =
      Some (fTarget g ++
            [PutBackVertices (fCurrChunkVertexCapacity g - fVertexCount c)
               sizeofSkPoint]).
Proof.
  intros g.
  destruct (currChunkWithinCapacity_emitPatches target arr0 t n)
    as (pre & c & Harr & Hcount & Hcap).
  fold g in Harr, Hcount, Hcap.
  split.
  - rewrite Harr. destruct pre; discriminate.
  - exists c. rewrite Harr at 1. rewrite back_app_last.
    repeat split; try lia.
    unfold GrStrokeGeometry_dtor, putBackVertices.
    rewrite Harr, back_app_last, Int32_sub_small; [reflexivity |].
    unfold Int32.in_range, Int32.min_signed, Int32.max_signed in *. lia.
Qed.

(** A run that never left its first chunk hands back the capacity granted at
    construction minus everything it wrote. *)
Lemma teardown_first_chunk_run (target : Target) (t : Z) (n : nat) :
  let g0 := ctor target [] t in
  let g := emit n g0 in
  length (fVertexChunkArray g) = 1%nat ->
  GrStrokeGeometry_dtor sizeofSkPoint g =
    Some (fTarget g ++
          [PutBackVertices
             (fCurrChunkVertexCapacity g0 - kNumVerticesPerPatch * Z.of_nat n)
             sizeofSkPoint]).
Proof.
  intros g0 g Hlen. subst g g0.
  destruct (currChunkWithinCapacity_emitPatches target [] t n)
    as (pre0 & c0 & Harr0 & Hcount & Hmax).
  destruct (runInvariant_emitPatches target [] t n)
    as (pre & c & Harr & Hsum & Hfirst).
  assert (Hpre : pre = []).
  { rewrite Harr in Hlen. simpl in Hlen. rewrite length_app in Hlen.
    simpl in Hlen. destruct pre; [reflexivity | simpl in Hlen; lia]. }
  subst pre. simpl in Harr.
  assert (Hc : c0 = c).
  { pose proof (back_app_last pre0 c0) as Hb. rewrite <- Harr0, Harr in Hb.
    unfold back in Hb. simpl in Hb. congruence. }
  subst c0.
  destruct (Hfirst eq_refl) as [Hcap _].
  unfold totalVertexCount in Hsum. simpl in Hsum.
  unfold GrStrokeGeometry_dtor, putBackVertices.
  rewrite Harr. unfold back. simpl.
  rewrite Int32_sub_small.
  - rewrite Hcap.
    replace (fVertexCount c) with (kNumVerticesPerPatch * Z.of_nat n) by lia.
    reflexivity.
  - unfold Int32.in_range, Int32.min_signed, Int32.max_signed in *. lia.
Qed.

End Run.

(** ** The model at work *)

Example twoChunkAdapter_run :
  emitPatches 5 8 exactTarget (doubleChunk 5) 4
    (GrStrokeGeometry_ctor 5 8 64 exactTarget [] [] 1) = twoChunkAdapter.
Proof. vm_compute. reflexivity. Qed.

Example oneChunkAdapter_run :
  emitPatches 5 8 exactTarget (doubleChunk 5) 2
    (GrStrokeGeometry_ctor 5 8 64 exactTarget [] [] 1) = oneChunkAdapter.
Proof. vm_compute. reflexivity. Qed.

Lemma exactTarget_grants : targetGrantsRequests exactTarget.
Proof.
  intros t n stride Hn. unfold exactTarget. cbn [resCapacity].
  unfold Int32.in_range, Int32.min_signed, Int32.max_signed in *. lia.
Qed.

Lemma pagedTarget_grants : targetGrantsRequests pagedTarget.
Proof.
  intros t n stride Hn. unfold pagedTarget. cbn [resCapacity].
  unfold Int32.in_range, Int32.min_signed, Int32.max_signed in *.
  pose proof (Z.div_mod (n + 63) 64 ltac:(lia)).
  pose proof (Z.mod_pos_bound (n + 63) 64 ltac:(lia)).
  lia.
Qed.

Lemma doubleChunk_covers (verticesPerPatch : Z) :
  0 < verticesPerPatch <= Int32.max_signed ->
  growthCoversPatch verticesPerPatch (doubleChunk verticesPerPatch).
Proof. intros Hk g. unfold doubleChunk. lia. Qed.

(** The example of the spec, taking five vertices to a patch:
    [totalCombinedVerbCnt = 2] reserves 30 vertices, room for six patches, and
    seven patches need exactly one more chunk. *)
Example seven_patches_two_chunks :
  let g := emitPatches 5 8 exactTarget (doubleChunk 5) 7
             (GrStrokeGeometry_ctor 5 8 64 exactTarget [] [] 2) in
  reservations (fTarget g) = [30; 60] /\
  map fVertexCount (fVertexChunkArray g) = [30; 5].
Proof. vm_compute. split; reflexivity. Qed.

(** ** The theorems at concrete runs *)

Lemma constructor_initial_reservation_witness :
  (0 <= 2 /\ 0 <= 5 /\ (2 * 3) * 5 <= Int32.max_signed) /\
  fTarget (GrStrokeGeometry_ctor 5 8 64 exactTarget [] [] 2) =
    [] ++ [ReserveVertices ((2 * 3) * 5) 8].
Proof.
  assert (Hfit : (2 * 3) * 5 <= Int32.max_signed)
    by (unfold Int32.max_signed; lia).
  split.
  - split; [lia | split; [lia | exact Hfit]].
  - exact (proj1 (constructor_initial_reservation 5 8 64 exactTarget [] [] 2
                    ltac:(lia) ltac:(lia) Hfit)).
Defined.

(** C2, as the spec states it, fails for a count whose product leaves the
    [int] range.  With five vertices to a patch and
    [totalCombinedVerbCnt = 143165577] the product is 2147483655, one patch
    and three vertices past the largest [int]; the constructor asks the
    target for -2147483641 vertices. *)
Lemma constructor_overflow_counterexample :
  0 <= 143165577 /\
  (143165577 * 3) * 5 = 2147483655 /\
  fTarget (GrStrokeGeometry_ctor 5 8 64 exactTarget [] [] 143165577) =
    [ReserveVertices (-2147483641) 8] /\
  fCurrChunkMinVertexAllocCount
    (GrStrokeGeometry_ctor 5 8 64 exactTarget [] [] 143165577) = -2147483641.
Proof. vm_compute. repeat split; congruence. Qed.

Lemma teardown_puts_back_last_chunk_slack_witness :
  fVertexChunkArray oneChunkAdapter =
    [] ++ [{| fVertexBuffer := Some 0%nat; fVertexCount := 10; fBaseVertex := 0 |}] /\
  GrStrokeGeometry_dtor 8 oneChunkAdapter =
    Some [ReserveVertices 15 8; PutBackVertices 5 8].
Proof.
  split.
  - reflexivity.
  - exact (proj1 (teardown_puts_back_last_chunk_slack 8 oneChunkAdapter []
                    {| fVertexBuffer := Some 0%nat; fVertexCount := 10;
                       fBaseVertex := 0 |} eq_refl)).
Defined.

(** C1, as the spec states it, fails once a run has grown a second chunk.
    In [twoChunkAdapter] the initial reservation was of 15 vertices and 20
    vertices were written in all, so nothing is left of the initial
    reservation; teardown nevertheless puts back 25 vertices, the slack of
    the second chunk. *)
Lemma teardown_after_growth_counterexample :
  GrStrokeGeometry_dtor 8 twoChunkAdapter =
    Some (fTarget twoChunkAdapter ++ [PutBackVertices 25 8]) /\
  reservations (fTarget twoChunkAdapter) = [initialReservation 5 1; 30] /\
  totalVertexCount (fVertexChunkArray twoChunkAdapter) = 20 /\
  initialReservation 5 1 - totalVertexCount (fVertexChunkArray twoChunkAdapter)
    = -5.
Proof. vm_compute. repeat split; reflexivity. Qed.

Example four_patches_overflow_fifteen_vertices :
  let g0 := GrStrokeGeometry_ctor 5 8 64 exactTarget [] [] 1 in
  let g := emitPatches 5 8 exactTarget (doubleChunk 5) 4 g0 in
  (0 <= fCurrChunkVertexCapacity g0 < 5 * Z.of_nat 4) /\
  (2 <= length (fVertexChunkArray g))%nat /\
  totalVertexCount (fVertexChunkArray g) = 5 * Z.of_nat 4.
Proof.
  pose proof (chunk_overflow_vertex_sum 5 8 64 exactTarget (doubleChunk 5)
                [] [] 1 4) as H.
  cbv zeta in H. destruct H as (Hgrow & _ & Hsum).
  assert (Hcap : 0 <= fCurrChunkVertexCapacity
                        (GrStrokeGeometry_ctor 5 8 64 exactTarget [] [] 1)
                   < 5 * Z.of_nat 4) by (vm_compute; split; congruence).
  split; [exact Hcap |]. split.
  - exact (Hgrow Hcap).
  - exact (Hsum eq_refl).
Qed.

Lemma destructor_back_in_bounds_witness :
  (0 < 5 /\ targetGrantsRequests pagedTarget /\
   growthCoversPatch 5 (doubleChunk 5)) /\
  let g := emitPatches 5 8 pagedTarget (doubleChunk 5) 14
             (GrStrokeGeometry_ctor 5 8 64 pagedTarget [] [] 1) in
  fVertexChunkArray g <> [] /\
  exists c : VertexChunk,
    back (fVertexChunkArray g) = Some c /\
    fVertexCount c <= fCurrChunkVertexCapacity g /\
    0 <= fCurrChunkVertexCapacity g - fVertexCount c /\
    GrStrokeGeometry_dtor 8 g =
      Some (fTarget g ++
            [PutBackVertices (fCurrChunkVertexCapacity g - fVertexCount c) 8]).
Proof.
  assert (Hk : 0 < 5) by lia.
  assert (Hg : growthCoversPatch 5 (doubleChunk 5)).
  { apply doubleChunk_covers. unfold Int32.max_signed. lia. }
  split.
  - exact (conj Hk (conj pagedTarget_grants Hg)).
  - exact (destructor_back_in_bounds 5 8 64 pagedTarget (doubleChunk 5)
             Hk pagedTarget_grants Hg [] [] 1 14).
Defined.

(** * Capability flags by name *)

Section SkSLProperties.

Import Stdlib.Strings.String.
Import SkSL.

Lemma fMap_find_app (name : string) (m1 m2 : CapsMap) :
  fMap_find name (m1 ++ m2) =
  match fMap_find name m1 with
  | Some m => Some m
  | None => fMap_find name m2
  end.
Proof.
  induction m1 as [| [k m] m1 IH]; simpl; [reflexivity |].
  destruct (String.eqb k name); [reflexivity | exact IH].
Qed.

Lemma fMap_find_erase_other (name k : string) (fMap : CapsMap) :
  String.eqb k name = false ->
  fMap_find name (fMap_erase k fMap) = fMap_find name fMap.
Proof.
  intros Hk. induction fMap as [| [k' m] fMap IH]; simpl; [reflexivity |].
  destruct (String.eqb k' k) eqn:Ek'.
  - apply String.eqb_eq in Ek'. subst k'. rewrite Hk. exact IH.
  - simpl. destruct (String.eqb k' name); [reflexivity | exact IH].
Qed.

Lemma fMap_find_erase_same (name : string) (fMap : CapsMap) :
  fMap_find name (fMap_erase name fMap) = None.
Proof.
  induction fMap as [| [k m] fMap IH]; simpl; [reflexivity |].
  destruct (String.eqb k name) eqn:Ek; [exact IH |].
  simpl. rewrite Ek. exact IH.
Qed.

Lemma fMap_find_none (name : string) (fMap : CapsMap) :
  fMap_find name fMap = None <-> ~ In name (map fst fMap).
Proof.
  induction fMap as [| [k m] fMap IH]; simpl.
  - split; [intros _ [] | reflexivity].
  - destruct (String.eqb k name) eqn:Ek.
    + apply String.eqb_eq in Ek. split; [discriminate |].
      intros H. exfalso. apply H. left. exact Ek.
    + apply String.eqb_neq in Ek. rewrite IH. split.
      * intros H [E | HIn]; [exact (Ek E) | exact (H HIn)].
      * intros H HIn. apply H. right. exact HIn.
Qed.

Lemma fMap_find_assigned (name : string) (capsLookups : list Pair)
    (fMap : CapsMap) :
  fMap_find name
    (fold_left (fun fMap entry => fMap_assign (fst entry) (snd entry) fMap)
               capsLookups fMap) =
  match fMap_find name (rev capsLookups) with
  | Some m => Some m
  | None => fMap_find name fMap
  end.
Proof.
  revert fMap. induction capsLookups as [| [k m] l IH]; intros fMap.
  - reflexivity.
  - cbn [fold_left rev fst snd]. rewrite IH, fMap_find_app.
    destruct (fMap_find name (rev l)); [reflexivity |].
    unfold fMap_assign. cbn [fMap_find].
    destruct (String.eqb k name) eqn:Ek; [reflexivity |].
    apply fMap_find_erase_other, Ek.
Qed.

Lemma fMap_erase_keys (name k : string) (fMap : CapsMap) :
  In name (map fst (fMap_erase k fMap)) -> In name (map fst fMap) /\ name <> k.
Proof.
  induction fMap as [| [k' m] fMap IH]; simpl; [intros [] |].
  destruct (String.eqb k' k) eqn:Ek'.
  - intros H. destruct (IH H) as [HIn Hne]. split; [right; exact HIn | exact Hne].
  - apply String.eqb_neq in Ek'. simpl. intros [E | H].
    + subst k'. split; [left; reflexivity | exact Ek'].
    + destruct (IH H) as [HIn Hne]. split; [right; exact HIn | exact Hne].
Qed.

Lemma fMap_erase_NoDup (k : string) (fMap : CapsMap) :
  NoDup (map fst fMap) -> NoDup (map fst (fMap_erase k fMap)).
Proof.
  induction fMap as [| [k' m] fMap IH]; simpl; intros Hnd; [constructor |].
  inversion Hnd as [| x xs Hnotin Hnd']; subst.
  destruct (String.eqb k' k); [exact (IH Hnd') |].
  simpl. constructor; [| exact (IH Hnd')].
  intros HIn. apply Hnotin. exact (proj1 (fMap_erase_keys k' k fMap HIn)).
Qed.

Lemma CapsLookupTable_NoDup_from (capsLookups : list Pair) (fMap : CapsMap) :
  NoDup (map fst fMap) ->
  NoDup (map fst
    (fold_left (fun fMap entry => fMap_assign (fst entry) (snd entry) fMap)
               capsLookups fMap)).
Proof.
  revert fMap. induction capsLookups as [| [k m] l IH]; intros fMap Hnd.
  - exact Hnd.
  - cbn [fold_left fst snd]. apply IH. unfold fMap_assign. simpl.
    constructor; [| apply fMap_erase_NoDup, Hnd].
    intros HIn. exact (proj2 (fMap_erase_keys k k fMap HIn) eq_refl).
Qed.

Lemma lookup_last_pair (capsLookups : list Pair) (name : string) :
  lookup (CapsLookupTable capsLookups) name = fMap_find name (rev capsLookups).
Proof.
  unfold lookup, CapsLookupTable. rewrite fMap_find_assigned.
  destruct (fMap_find name (rev capsLookups)); reflexivity.
Qed.

Lemma lookup_none_iff (capsLookups : list Pair) (name : string) :
  lookup (CapsLookupTable capsLookups) name = None <->
  ~ In name (map fst capsLookups).
Proof.
  rewrite lookup_last_pair, fMap_find_none, map_rev. split.
  - intros H HIn. apply H, in_rev. rewrite rev_involutive. exact HIn.
  - intros H HIn. apply H, in_rev. exact HIn.
Qed.

Lemma fMap_find_In (name : string) (fMap : CapsMap) (m : CapsLookupMethod) :
  fMap_find name fMap = Some m -> In (name, m) fMap.
Proof.
  induction fMap as [| [k m'] fMap IH]; simpl; [discriminate |].
  destruct (String.eqb k name) eqn:Ek.
  - apply String.eqb_eq in Ek. intros [= ->]. left. rewrite Ek. reflexivity.
  - intros H. right. exact (IH H).
Qed.

(** X2.  A [CapsLookupTable] built from an initializer list answers
    [lookup] with the last pair of the list that carries the name (an
    assignment to a key that is there replaces the entry), and with [nullptr]
    exactly for the names the list does not mention; the map never holds two
    entries for one name. *)
Theorem CapsLookupTable_lookup (capsLookups : list Pair) (name : string) :
  lookup (CapsLookupTable capsLookups) name = fMap_find name (rev capsLookups) /\
  (lookup (CapsLookupTable capsLookups) name = None <->
   ~ In name (map fst capsLookups)) /\
  (forall (before after : list Pair) (m : CapsLookupMethod),
     capsLookups = before ++ (name, m) :: after ->
     ~ In name (map fst after) ->
     lookup (CapsLookupTable capsLookups) name = Some m) /\
  NoDup (map fst (CapsLookupTable capsLookups)).
Proof.
  split; [apply lookup_last_pair |]. split; [apply lookup_none_iff | split].
  - intros before after m -> Hafter.
    rewrite lookup_last_pair, rev_app_distr. cbn [rev].
    rewrite <- app_assoc, fMap_find_app.
    assert (Hnone : fMap_find name (rev after) = None).
    { apply fMap_find_none. rewrite map_rev. intros HIn. apply Hafter.
      apply in_rev. exact HIn. }
    rewrite Hnone. cbn [app fMap_find]. rewrite String.eqb_refl. reflexivity.
  - apply CapsLookupTable_NoDup_from. constructor.
Qed.

(** Every entry of the startup table looks up a [bool] capability. *)
Lemma sCapsLookupTable_bool (name : string) (m : CapsLookupMethod) :
  lookup sCapsLookupTable name = Some m ->
  exists getter, m = BoolCapsLookup getter /\
                 In (name, BoolCapsLookup getter) sCapsLookups.
Proof.
  unfold sCapsLookupTable. rewrite lookup_last_pair. intros H.
  apply fMap_find_In in H. rewrite <- in_rev in H.
  assert (Hall : Forall (fun p : Pair => exists getter, snd p = BoolCapsLookup getter)
                        sCapsLookups).
  { unfold sCapsLookups. repeat constructor; eexists; reflexivity. }
  rewrite Forall_forall in Hall. destruct (Hall _ H) as [getter Hg].
  simpl in Hg. subst m. exists getter. split; [reflexivity | exact H].
Qed.

(** Each pair of the initializer list is found under its name: no two of the
    sixteen names coincide. *)
Lemma sCapsLookupTable_listed (name : string) (m : CapsLookupMethod) :
  In (name, m) sCapsLookups -> lookup sCapsLookupTable name = Some m.
Proof.
  unfold sCapsLookups. simpl.
  intros H. repeat (destruct H as [H | H]; [injection H as <- <-; reflexivity |]).
  destruct H.
Qed.

Lemma error_changes_context (offset : Z) (msg : string) (context : Context) :
  error offset msg context <> context.
Proof.
  intros H. apply (f_equal fErrors) in H. simpl in H.
  apply (f_equal (@List.length _)) in H. rewrite length_app in H.
  simpl in H. lia.
Qed.

(** X3.  [Setting::GetType] has two outcomes.  For a name of the table it
    returns the [bool] type -- never [int], no entry of the table being an
    [IntCapsLookup] -- and reports nothing.  For any other name it returns
    [nullptr] and reports one error, at the offset it was given, with the
    name quoted in the message. *)
Theorem GetType_bool_or_error (context : Context) (offset : Z) (name : string) :
  (In name (map fst sCapsLookups) /\
   GetType context offset name = (Some fBool, context)) \/
  (~ In name (map fst sCapsLookups) /\
   GetType context offset name =
     (None,
      {| fCaps := fCaps context;
         fErrors := fErrors context ++
                    [(offset, ("unknown capability flag '" ++ name ++ "'")%string)];
         fReplaceSettings := fReplaceSettings context |})).
Proof.
  unfold GetType. destruct (lookup sCapsLookupTable name) as [m |] eqn:E.
  - left. split.
    + destruct (in_dec String.string_dec name (map fst sCapsLookups))
        as [HIn | Hout]; [exact HIn |].
      apply lookup_none_iff in Hout. unfold sCapsLookupTable in E. congruence.
    + destruct (sCapsLookupTable_bool name m E) as (getter & -> & _).
      reflexivity.
  - right. split; [apply lookup_none_iff, E | reflexivity].
Qed.

(** X4.  [Setting::GetValue] succeeds exactly when [GetType] does and leaves
    the context as [GetType] leaves it.  For a name the table lists it
    returns a [BoolLiteral] holding what the getter of that name returns on
    [context.fCaps]; the literal's offset is [-1], not the offset of the
    setting, and nothing is reported. *)
Theorem GetValue_literal (context : Context) (offset : Z) (name : string) :
  snd (GetValue context offset name) = snd (GetType context offset name) /\
  (fst (GetValue context offset name) = None <->
   fst (GetType context offset name) = None) /\
  (forall e, fst (GetValue context offset name) = Some e ->
     exists getter,
       In (name, BoolCapsLookup getter) sCapsLookups /\
       e = BoolLiteral (-1) (getter (fCaps context))) /\
  (forall getter,
     In (name, BoolCapsLookup getter) sCapsLookups ->
     GetValue context offset name =
       (Some (BoolLiteral (-1) (getter (fCaps context))), context)).
Proof.
  unfold GetValue, GetType.
  split; [| split; [| split]].
  - destruct (lookup sCapsLookupTable name); reflexivity.
  - destruct (lookup sCapsLookupTable name); simpl; split; congruence.
  - destruct (lookup sCapsLookupTable name) as [m |] eqn:E; simpl;
      [| discriminate].
    intros e [= <-]. destruct (sCapsLookupTable_bool name m E) as (g & -> & HIn).
    exists g. split; [exact HIn | reflexivity].
  - intros getter HIn. rewrite (sCapsLookupTable_listed _ _ HIn). reflexivity.
Qed.

(** X5.  [Setting::constantPropagate] yields an expression exactly when
    [fReplaceSettings] is set and the setting names a capability of the
    table; it changes the context -- by one error at the setting's offset --
    exactly when [fReplaceSettings] is set and the name is unknown.  With
    [fReplaceSettings] off an unknown name goes unreported. *)
Theorem constantPropagate_outcomes (this : Setting) (fContext : Context) :
  let r := constantPropagate this fContext in
  (fst r <> None <->
   fReplaceSettings fContext = true /\ In (name this) (map fst sCapsLookups)) /\
  (snd r <> fContext <->
   fReplaceSettings fContext = true /\ ~ In (name this) (map fst sCapsLookups)) /\
  (snd r = fContext \/
   snd r = error (fOffset this) (unknownCapabilityFlag (name this)) fContext) /\
  (forall e, fst r = Some e -> exists b, e = BoolLiteral (-1) b).
Proof.
  unfold constantPropagate, GetValue.
  pose proof (lookup_none_iff sCapsLookups (name this)) as Hnone.
  fold sCapsLookupTable in Hnone.
  destruct (fReplaceSettings fContext);
    [destruct (lookup sCapsLookupTable (name this)) as [m |] eqn:E |]; cbn.
  - assert (HIn : In (name this) (map fst sCapsLookups)).
    { destruct (in_dec String.string_dec (name this) (map fst sCapsLookups))
        as [HIn | Hout]; [exact HIn |].
      apply Hnone in Hout. discriminate. }
    split; [| split; [| split]].
    + split; [intros _; split; [reflexivity | exact HIn] | discriminate].
    + split; [intros H; exfalso; apply H; reflexivity
             | intros [_ H]; exfalso; exact (H HIn)].
    + left. reflexivity.
    + intros e [= <-]. destruct (sCapsLookupTable_bool _ m E) as (g & -> & _).
      eexists. reflexivity.
  - assert (Hout : ~ In (name this) (map fst sCapsLookups))
      by (apply Hnone; reflexivity).
    split; [| split; [| split]].
    + split; [intros H; exfalso; apply H; reflexivity
             | intros [_ H]; exfalso; exact (Hout H)].
    + split; [intros _; split; [reflexivity | exact Hout]
             | intros _; apply error_changes_context].
    + right. reflexivity.
    + intros e; discriminate.
  - split; [| split; [| split]].
    + split; [intros H; exfalso; apply H; reflexivity
             | intros [H _]; discriminate].
    + split; [intros H; exfalso; apply H; reflexivity
             | intros [H _]; discriminate].
    + left. reflexivity.
    + intros e; discriminate.
Qed.

End SkSLProperties.

(** * The rescale grid *)

Section RescaleGMProperties.

Import Stdlib.Strings.String.
Import RescaleGM.

Variable kRec601_SkYUVColorSpace : Z.
Variable kLastEnum_SkYUVColorSpace : Z.
Variable SK_DEBUG : bool.
Variable readBack : list ReadRequest -> ReadRequest -> ReadBack.
Variable srcRect : SkIRect.
Variable newSize : SkISize.
Variable pad : Z.

Local Abbreviation grid :=
  (do_rescale_grid kRec601_SkYUVColorSpace kLastEnum_SkYUVColorSpace SK_DEBUG
     readBack srcRect newSize).
Local Abbreviation cellRequests :=
  (gridRequests kRec601_SkYUVColorSpace kLastEnum_SkYUVColorSpace srcRect
     newSize).

Local Ltac answer_read_backs :=
  repeat match goal with
         | |- context [readBack ?h ?r] =>
             destruct (readBack h r) eqn:?;
             cbn -[int_add nextColorSpace evenSize]
         end.

(** The grid against the answers of the source, once the checks at the top
    have let the canvas through and the size has passed the assertion of the
    YUV helper. *)
Lemma do_rescale_grid_run (doYUV420 : bool) (g : Grid) :
  doYUV420 && negb (directContext g) = false ->
  colorTypeUnknown g = false ->
  (doYUV420 = true -> SK_DEBUG && negb (evenSize newSize) = false) ->
  let images := fst (readBacks readBack (requests g) (cellRequests doYUV420)) in
  let stop := snd (readBacks readBack (requests g) (cellRequests doYUV420)) in
  fst (grid doYUV420 pad g) =
    match stop with
    | None => Return kOk
    | Some ReadNull => Return (if doYUV420 then kSkip else kFail)
    | Some _ => NoReturn
    end /\
  requests (snd (grid doYUV420 pad g)) =
    requests g ++ firstn (S (List.length images)) (cellRequests doYUV420) /\
  errorMsg (snd (grid doYUV420 pad g)) =
    match stop with
    | Some ReadNull =>
        if doYUV420
        then "YUV420 async call failed. Allowed for now."%string
        else "async read call failed."%string
    | _ => errorMsg g
    end /\
  exists added : list CanvasCall,
    canvasCalls (snd (grid doYUV420 pad g)) = canvasCalls g ++ added /\
    drawnImages added = images /\
    openSaves added = match stop with None => 0 | Some _ => 2 end.
Proof.
  intros Hdirect Hcolor Heven images stop. subst images stop.
  unfold do_rescale_grid. rewrite Hdirect, Hcolor.
  destruct doYUV420.
  - specialize (Heven eq_refl).
    unfold gammaLoop, qualityLoop, do_read_and_scale_yuv, readAndScale,
      gridRequests, gridRequest.
    cbn -[int_add nextColorSpace evenSize]. rewrite Heven.
    cbn -[int_add nextColorSpace evenSize].
    answer_read_backs;
      (split; [reflexivity |]; split;
       [repeat rewrite <- app_assoc; reflexivity |];
       split; [reflexivity |];
       eexists; split;
       [repeat rewrite <- app_assoc; reflexivity
       | split; reflexivity]).
  - unfold gammaLoop, qualityLoop, do_read_and_scale, readAndScale,
      gridRequests, gridRequest.
    cbn -[int_add nextColorSpace evenSize].
    answer_read_backs;
      (split; [reflexivity |]; split;
       [repeat rewrite <- app_assoc; reflexivity |];
       split; [reflexivity |];
       eexists; split;
       [repeat rewrite <- app_assoc; reflexivity
       | split; reflexivity]).
Qed.

(** X6.  What a call of [do_rescale_grid] does, case by case.  A YUV grid on
    a canvas without a direct context, and any grid on a canvas of unknown
    colour type, is skipped with a message, nothing else having happened.
    A YUV grid of an odd size stops, in a debug build, at the assertion of
    the first read-back: two saves made, nothing requested.  Otherwise the
    source is asked cell by cell until an answer is not an image.  Every
    image returned before that is drawn, in order, and nothing else is.  If
    all six answers are images the result is [kOk], every save is matched by
    a restore and the message is untouched.  If an answer is [nullptr] the
    result is [kFail], or [kSkip] for a YUV grid, with the message of the
    failed read-back, and the function has returned from inside the loops
    with its two saves open.  If a read-back does not return, neither does
    the grid. *)
Theorem do_rescale_grid_outcome (doYUV420 : bool) (g : Grid) :
  (doYUV420 && negb (directContext g) = true ->
   grid doYUV420 pad g =
     (Return kSkip,
      setErrorMsg "YUV420 only supported on direct GPU for now." g)) /\
  (doYUV420 && negb (directContext g) = false ->
   colorTypeUnknown g = true ->
   grid doYUV420 pad g =
     (Return kSkip,
      setErrorMsg "Not supported on recording/vector backends." g)) /\
  (doYUV420 = true -> directContext g = true -> colorTypeUnknown g = false ->
   SK_DEBUG && negb (evenSize newSize) = true ->
   fst (grid doYUV420 pad g) = NoReturn /\
   requests (snd (grid doYUV420 pad g)) = requests g /\
   canvasCalls (snd (grid doYUV420 pad g)) = canvasCalls g ++ [Save; Save] /\
   errorMsg (snd (grid doYUV420 pad g)) = errorMsg g) /\
  (doYUV420 && negb (directContext g) = false ->
   colorTypeUnknown g = false ->
   (doYUV420 = true -> SK_DEBUG && negb (evenSize newSize) = false) ->
   let images := fst (readBacks readBack (requests g) (cellRequests doYUV420)) in
   let stop := snd (readBacks readBack (requests g) (cellRequests doYUV420)) in
   fst (grid doYUV420 pad g) =
     match stop with
     | None => Return kOk
     | Some ReadNull => Return (if doYUV420 then kSkip else kFail)
     | Some _ => NoReturn
     end /\
   requests (snd (grid doYUV420 pad g)) =
     requests g ++ firstn (S (List.length images)) (cellRequests doYUV420) /\
   errorMsg (snd (grid doYUV420 pad g)) =
     match stop with
     | Some ReadNull =>
         if doYUV420
         then "YUV420 async call failed. Allowed for now."%string
         else "async read call failed."%string
     | _ => errorMsg g
     end /\
   exists added : list CanvasCall,
     canvasCalls (snd (grid doYUV420 pad g)) = canvasCalls g ++ added /\
     drawnImages added = images /\
     openSaves added = match stop with None => 0 | Some _ => 2 end).
Proof.
  split; [| split; [| split]].
  - intros H. unfold do_rescale_grid. rewrite H. reflexivity.
  - intros H Hc. unfold do_rescale_grid. rewrite H, Hc. reflexivity.
  - intros -> Hd Hc Hodd.
    unfold do_rescale_grid, gammaLoop, qualityLoop, do_read_and_scale_yuv.
    rewrite Hd, Hc. cbn -[int_add nextColorSpace evenSize]. rewrite Hodd.
    cbn. rewrite <- app_assoc. repeat split; reflexivity.
  - apply do_rescale_grid_run.
Qed.

(** One step of the colour-space rotation, for enumerators in range. *)
Lemma nextColorSpace_cycle (i : Z) :
  0 <= kRec601_SkYUVColorSpace <= kLastEnum_SkYUVColorSpace ->
  kLastEnum_SkYUVColorSpace < Int32.max_signed ->
  0 <= i ->
  nextColorSpace kLastEnum_SkYUVColorSpace
    ((kRec601_SkYUVColorSpace + i) mod (kLastEnum_SkYUVColorSpace + 1)) =
  (kRec601_SkYUVColorSpace + (i + 1)) mod (kLastEnum_SkYUVColorSpace + 1).
Proof.
  intros Hk Hl Hi.
  set (k := kRec601_SkYUVColorSpace) in *.
  set (L := kLastEnum_SkYUVColorSpace) in *.
  pose proof (Z.mod_pos_bound (k + i) (L + 1) ltac:(lia)) as Hb.
  unfold nextColorSpace, int_add. unfold Int32.max_signed in Hl.
  rewrite !Int32_wrap_small
    by (unfold Int32.in_range, Int32.min_signed, Int32.max_signed; lia).
  rewrite Z.rem_mod_nonneg by lia.
  rewrite Z.add_assoc, Zplus_mod_idemp_l. reflexivity.
Qed.

Lemma nextColorSpace_iter (i : nat) :
  0 <= kRec601_SkYUVColorSpace <= kLastEnum_SkYUVColorSpace ->
  kLastEnum_SkYUVColorSpace < Int32.max_signed ->
  Nat.iter i (nextColorSpace kLastEnum_SkYUVColorSpace)
    kRec601_SkYUVColorSpace =
  (kRec601_SkYUVColorSpace + Z.of_nat i) mod (kLastEnum_SkYUVColorSpace + 1).
Proof.
  intros Hk Hl. induction i as [| i IH].
  - simpl. rewrite Z.add_0_r, Z.mod_small; lia.
  - cbn [Nat.iter nat_rect]. fold (Nat.iter i (nextColorSpace kLastEnum_SkYUVColorSpace)
                                     kRec601_SkYUVColorSpace).
    rewrite IH, nextColorSpace_cycle by lia.
    rewrite Nat2Z.inj_succ. reflexivity.
Qed.

(** X7.  Past the checks at the top, [do_rescale_grid] requests its
    read-backs in row-major order -- source gamma with no, low and high
    filter quality, then linear gamma with the same three -- each with the
    [srcRect] and the size it was given, and it stops with the first request
    that the source does not answer with an image: as many requests are made
    as images came back, and one more if that was not all six.  In a YUV grid
    the [i]-th request carries the colour space
    [(kRec601_SkYUVColorSpace + i) mod (kLastEnum_SkYUVColorSpace + 1)]: it
    moves on by one enumerator with every image and wraps after the last.
    Otherwise no colour space is passed. *)
Theorem do_rescale_grid_requests (doYUV420 : bool) (g : Grid) :
  0 <= kRec601_SkYUVColorSpace <= kLastEnum_SkYUVColorSpace ->
  kLastEnum_SkYUVColorSpace < Int32.max_signed ->
  doYUV420 && negb (directContext g) = false ->
  colorTypeUnknown g = false ->
  (doYUV420 = true -> SK_DEBUG && negb (evenSize newSize) = false) ->
  let cells :=
    map (fun cell : nat * (RescaleGamma * SkFilterQuality) =>
           {| reqYUVColorSpace :=
                if doYUV420
                then Some ((kRec601_SkYUVColorSpace + Z.of_nat (fst cell))
                           mod (kLastEnum_SkYUVColorSpace + 1))
                else None;
              reqSrcRect := srcRect;
              reqSize := newSize;
              reqGamma := fst (snd cell);
              reqQuality := snd (snd cell) |})
        (combine (seq 0 6) gridCells) in
  let images := fst (readBacks readBack (requests g) cells) in
  requests (snd (grid doYUV420 pad g)) =
    requests g ++ firstn (S (List.length images)) cells /\
  (List.length images = 6%nat <-> fst (grid doYUV420 pad g) = Return kOk).
Proof.
  intros Hk Hl Hdirect Hcolor Heven cells images.
  assert (Hcells : cells = cellRequests doYUV420).
  { subst cells. unfold gridRequests, gridRequest.
    apply map_ext. intros [i cell]. cbn [fst snd].
    rewrite (nextColorSpace_iter i Hk Hl). reflexivity. }
  subst images. rewrite Hcells.
  destruct (do_rescale_grid_run doYUV420 g Hdirect Hcolor Heven)
    as (Hres & Hreqs & _ & _).
  split; [exact Hreqs |].
  rewrite Hres. clear Hres Hreqs Hcells cells.
  unfold gridRequests. cbn -[nextColorSpace].
  answer_read_backs; split; intros H; try discriminate; try reflexivity;
    destruct doYUV420; discriminate.
Qed.

End RescaleGMProperties.

(** * The added theorems at concrete inputs *)

Lemma initial_reservation_overflow_witness :
  (0 <= 1073741824 /\ 0 < 5) /\
  initialReservation 5 1073741824 < (1073741824 * 3) * 5.
Proof.
  split; [lia |].
  apply (initial_reservation_overflow 5 1073741824); unfold Int32.max_signed; lia.
Defined.

Lemma do_rescale_grid_requests_witness :
  (0 <= 1 <= 4 /\ 4 < Int32.max_signed) /\
  RescaleGM.requests
    (snd (RescaleGM.do_rescale_grid 1 4 true (RescaleGM.readFailsAt 4)
            (RescaleGM.mkSkIRect 50 5 250 155) (RescaleGM.mkSkISize 106 60)
            true 0 (RescaleGM.emptyGrid true))) =
  map (fun cell : Z * (RescaleGM.RescaleGamma * RescaleGM.SkFilterQuality) =>
         {| RescaleGM.reqYUVColorSpace := Some (fst cell);
            RescaleGM.reqSrcRect := RescaleGM.mkSkIRect 50 5 250 155;
            RescaleGM.reqSize := RescaleGM.mkSkISize 106 60;
            RescaleGM.reqGamma := fst (snd cell);
            RescaleGM.reqQuality := snd (snd cell) |})
      [ (1, (RescaleGM.kSrc, RescaleGM.kNone_SkFilterQuality));
        (2, (RescaleGM.kSrc, RescaleGM.kLow_SkFilterQuality));
        (3, (RescaleGM.kSrc, RescaleGM.kHigh_SkFilterQuality));
        (4, (RescaleGM.kLinear, RescaleGM.kNone_SkFilterQuality));
        (0, (RescaleGM.kLinear, RescaleGM.kLow_SkFilterQuality)) ].
Proof.
  assert (Hk : 0 <= 1 <= 4) by lia.
  assert (Hl : 4 < Int32.max_signed) by (unfold Int32.max_signed; lia).
  split; [exact (conj Hk Hl) |].
  exact (proj1 (do_rescale_grid_requests 1 4 true (RescaleGM.readFailsAt 4)
                  (RescaleGM.mkSkIRect 50 5 250 155)
                  (RescaleGM.mkSkISize 106 60) 0 true
                  (RescaleGM.emptyGrid true) Hk Hl eq_refl eq_refl
                  (fun _ => eq_refl))).
Defined.

Lemma do_rescale_grid_outcome_witness :
  fst (RescaleGM.do_rescale_grid 1 4 true (RescaleGM.readFailsAt 4)
         (RescaleGM.mkSkIRect 5 5 10 10) (RescaleGM.mkSkISize 17 23)
         false 2 (RescaleGM.emptyGrid false)) =
    RescaleGM.Return RescaleGM.kFail /\
  RescaleGM.drawnImages
    (RescaleGM.canvasCalls
       (snd (RescaleGM.do_rescale_grid 1 4 true RescaleGM.readAlways
               (RescaleGM.mkSkIRect 50 5 250 155) (RescaleGM.mkSkISize 106 60)
               true 0 (RescaleGM.emptyGrid true)))) =
    [0; 1; 2; 3; 4; 5]%nat.
Proof.
  split.
  - exact (proj1 (proj2 (proj2 (proj2
             (do_rescale_grid_outcome 1 4 true (RescaleGM.readFailsAt 4)
                (RescaleGM.mkSkIRect 5 5 10 10) (RescaleGM.mkSkISize 17 23)
                2 false (RescaleGM.emptyGrid false))))
             eq_refl eq_refl (fun H => False_ind _ (Bool.diff_false_true H)))).
  - destruct (proj2 (proj2 (proj2
             (do_rescale_grid_outcome 1 4 true RescaleGM.readAlways
                (RescaleGM.mkSkIRect 50 5 250 155) (RescaleGM.mkSkISize 106 60)
                0 true (RescaleGM.emptyGrid true))))
             eq_refl eq_refl (fun _ => eq_refl))
      as (_ & _ & _ & added & Hcalls & Hdrawn & _).
    rewrite Hcalls. exact Hdrawn.
Defined.
